(** * vanilla-redux: the reducer of [src/index.js] and the store it is given to

    The program keeps one flat state object [{toggle, counter}] and changes it
    only through [reducer], a switch over [action.type].  Two readings of the
    reducer are given:

    - [reducer], on objects taken by value (what the fields hold);
    - [Heap.reducer], on references into an object store, where an object
      literal with a spread allocates a new object and [return state] hands
      back the reference it was given.

    [heap_reducer_value] relates the two.  [Dynamic.reducer] is the reducer
    on any state argument, [null] included, where a call can throw.  The
    rest of the script ([render], [listener], the module body and the click
    handlers) is in [Script] and the definitions after it.

    Numbers: the counter and the [difference] payload are JavaScript numbers
    that hold integers in this program (the buttons dispatch [increase(1)] and
    [decrease()]).  A number is modelled as [Num z] for the integer it holds,
    [Infinity], [NegInfinity] or [NaN]; [+] and [-] compute the exact integer
    result and round it as binary64 does ([round_binary64]): to the nearest
    number with a 53-bit significand, ties to even, and to an infinity from
    2^1024.  Results of magnitude up to [MAX_SAFE_INTEGER] are exact.  The
    two zeros are not told apart, and fractions are outside the model. *)

From Stdlib Require Import ZArith Ascii.
From stdpp Require Import base option list sorting gmap strings pretty.

Local Open Scope Z_scope.

(** ** JavaScript numbers, as far as the reducer uses them *)

Inductive number : Type :=
  | Num (z : Z)
  | NaN
  | Infinity
  | NegInfinity.

#[global] Instance number_eq_dec : EqDecision number.
Proof. solve_decision. Defined.

(** [Number.MAX_SAFE_INTEGER], 2^53 - 1. *)
Definition MAX_SAFE_INTEGER : Z := 9007199254740991.

(** The binary64 value of an exact integer result: integers of at most 53
    bits are kept; a longer one keeps its 53 leading bits, rounded to the
    nearest, a tie going to the even significand; from 2^1024 the result is
    an infinity. *)
Definition round_binary64 (z : Z) : number :=
  let a := Z.abs z in
  let e := Z.log2 a - 52 in
  if e <=? 0 then Num z
  else
    let q := a / 2 ^ e in
    let r := a mod 2 ^ e in
    let half := 2 ^ (e - 1) in
    let m :=
      if r <? half then q
      else if half <? r then q + 1
      else if Z.even q then q else q + 1 in
    let v := m * 2 ^ e in
    if 2 ^ 1024 <=? v then (if 0 <? z then Infinity else NegInfinity)
    else Num (Z.sgn z * v).

(** [ToNumber] of a property that may be missing: [undefined] becomes [NaN]. *)
Definition to_number (v : option number) : number :=
  match v with
  | Some n => n
  | None => NaN
  end.

(** [a + b] on numbers. *)
Definition js_add (a b : number) : number :=
  match a, b with
  | NaN, _ | _, NaN => NaN
  | Num x, Num y => round_binary64 (x + y)
  | Infinity, NegInfinity | NegInfinity, Infinity => NaN
  | Infinity, _ | _, Infinity => Infinity
  | NegInfinity, _ | _, NegInfinity => NegInfinity
  end.

(** [a - b] on numbers. *)
Definition js_sub (a b : number) : number :=
  match a, b with
  | NaN, _ | _, NaN => NaN
  | Num x, Num y => round_binary64 (x - y)
  | Infinity, Infinity | NegInfinity, NegInfinity => NaN
  | Infinity, _ | _, NegInfinity => Infinity
  | NegInfinity, _ | _, Infinity => NegInfinity
  end.

(** ** State and actions *)

(** The state object: [{ toggle, counter }]. *)
Record State : Type := mkState {
  toggle : bool;
  counter : number;
}.

#[global] Instance State_eq_dec : EqDecision State.
Proof. solve_decision. Defined.

(** An action object: [type] is always there, [difference] only on the
    actions that were built with one ([None] is a missing property). *)
Record Action : Type := mkAction {
  type : string;
  difference : option number;
}.

#[global] Instance Action_eq_dec : EqDecision Action.
Proof. solve_decision. Defined.

Definition TOGGLE_SWITCH : string := "TOGGLE_SWITCH".
Definition INCREASE : string := "INCREASE".
Definition DECREASE : string := "DECREASE".

(** Action creators. *)
Definition toggleSwitch : Action :=
  {| type := TOGGLE_SWITCH; difference := None |}.
Definition increase (difference : option number) : Action :=
  {| type := INCREASE; difference := difference |}.
Definition decrease : Action :=
  {| type := DECREASE; difference := None |}.

Definition initialState : State :=
  {| toggle := false; counter := Num 0 |}.

(** [{ ...state, toggle: v }] and [{ ...state, counter: n }]: every own
    property of [state] is copied, then the named one is overwritten. *)
Definition spread_toggle (state : State) (v : bool) : State :=
  {| toggle := v; counter := counter state |}.
Definition spread_counter (state : State) (n : number) : State :=
  {| toggle := toggle state; counter := n |}.

(** ** The reducer, by value *)

(** [function reducer(state = initialState, action)]: [None] is a call with
    [state] undefined, which the parameter default replaces. *)
Definition reducer (state : option State) (action : Action) : State :=
  let state := default initialState state in
  if decide (type action = TOGGLE_SWITCH) then
    spread_toggle state (negb (toggle state))
  else if decide (type action = INCREASE) then
    spread_counter state (js_add (counter state) (to_number (difference action)))
  else if decide (type action = DECREASE) then
    spread_counter state (js_sub (counter state) (Num 1))
  else
    state.

(** Replaying a list of actions from a state. *)
Definition replay (s : State) (actions : list Action) : State :=
  fold_left (fun s a => reducer (Some s) a) actions s.

(** ** The reducer, on references *)

Module Heap.

(** Objects live in a store; a state is held through a reference. *)
Definition ref : Type := nat.

(** The module-level [const initialState] is bound to one object for the
    whole run. *)
Definition initialState_ref : ref := 0%nat.

(** The store right after the module's constants are evaluated. *)
Definition module_heap : gmap nat State :=
  {[ initialState_ref := initialState ]}.

(** An object literal: a new object at a reference not in use. *)
Definition alloc (o : State) (h : gmap nat State) : nat * gmap nat State :=
  let r := fresh (dom h) in (r, <[r := o]> h).

(** [None] is a read through a reference that is not in the store; a
    JavaScript program cannot hold such a reference. *)
Definition reducer (h : gmap nat State) (state : option nat) (action : Action)
  : option (nat * gmap nat State) :=
  let state := default initialState_ref state in
  if decide (type action = TOGGLE_SWITCH) then
    o ← h !! state;
    Some (alloc (spread_toggle o (negb (toggle o))) h)
  else if decide (type action = INCREASE) then
    o ← h !! state;
    Some (alloc (spread_counter o (js_add (counter o) (to_number (difference action)))) h)
  else if decide (type action = DECREASE) then
    o ← h !! state;
    Some (alloc (spread_counter o (js_sub (counter o) (Num 1))) h)
  else
    Some (state, h).

End Heap.

(** ** The store

    [createStore] is imported from the redux package; its code is not part of
    [src/].  The container below follows the specification's description of
    it.  Listeners are callbacks that neither call back into the store nor
    throw (as [render] and [listener] of [src/index.js]): a notification is
    recorded in the log [notified], with the registration it was made
    through. *)

Module Store.
Section Container.

Context {TState TAction TListener : Type}.

(** The transition function; [None] stands for a call that throws or
    returns [undefined]. *)
Variable transitionFn : option TState → TAction → option TState.

(** The initialization action the container sends when it is created
    without an initial state. *)
Variable INIT : TAction.

(** Modelled from the spec: the container of redux's [createStore], which
    is missing from [src/]; it owns the current state, the registrations in
    subscription order, and the identifier of the next registration. *)
Record Container : Type := mkContainer {
  currentState : option TState;
  listeners : list (nat * TListener);
  nextId : nat;
  notified : list (nat * TListener);
}.

(** Modelled from the spec: [create(transitionFn, initialState?)] of the
    missing container; the current state is the given one, else what the
    transition function returns on an absent state and [INIT]. *)
Definition create (initial : option TState) : Container :=
  {| currentState :=
       match initial with
       | Some s => Some s
       | None => transitionFn None INIT
       end;
     listeners := [];
     nextId := 0%nat;
     notified := [] |}.

(** Modelled from the spec: [getState()] of the missing container. *)
Definition getState (c : Container) : option TState := currentState c.

(** Modelled from the spec: [dispatch(action)] of the missing container;
    the next state replaces the current one and then every registered
    listener is called, in subscription order.  [None] is the error raised
    to the caller when the transition yields no state: the container is
    left as it was and nobody is notified. *)
Definition dispatch (action : TAction) (c : Container) : option Container :=
  next ← transitionFn (currentState c) action;
  Some {| currentState := Some next;
          listeners := listeners c;
          nextId := nextId c;
          notified := notified c ++ listeners c |}.

(** Modelled from the spec: [subscribe(listener)] of the missing container;
    the result is the handle (the registration's identifier) and the
    container with the registration added last. *)
Definition subscribe (l : TListener) (c : Container) : nat * Container :=
  (nextId c,
   {| currentState := currentState c;
      listeners := listeners c ++ [(nextId c, l)];
      nextId := S (nextId c);
      notified := notified c |}).

(** Modelled from the spec: invoking the handle returned by [subscribe] of
    the missing container removes exactly that registration. *)
Definition unsubscribe (id : nat) (c : Container) : Container :=
  {| currentState := currentState c;
     listeners := filter (λ r, r.1 ≠ id) (listeners c);
     nextId := nextId c;
     notified := notified c |}.

(** The calls a client makes on the container, one after the other. *)
Inductive call : Type :=
  | Dispatch (a : TAction)
  | Subscribe (l : TListener)
  | Unsubscribe (id : nat)
  | GetState.

Definition step (c : Container) (o : call) : Container :=
  match o with
  | Dispatch a => default c (dispatch a c)
  | Subscribe l => (subscribe l c).2
  | Unsubscribe id => unsubscribe id c
  | GetState => c
  end.

Definition run (c : Container) (calls : list call) : Container :=
  fold_left step calls c.

(** The actions dispatched by a list of calls, in order. *)
Definition dispatched (calls : list call) : list TAction :=
  omap (λ o, match o with Dispatch a => Some a | _ => None end) calls.

Definition is_unsubscribe (id : nat) (o : call) : bool :=
  match o with
  | Unsubscribe id' => bool_decide (id' = id)
  | _ => false
  end.

(** How many times the registration [id] has been notified so far. *)
Definition calls_of (id : nat) (c : Container) : nat :=
  length (filter (λ r, r.1 = id) (notified c)).

Definition registered (id : nat) (c : Container) : Prop :=
  id ∈ (listeners c).*1.

(** What holds of every container between two calls: registrations are in
    the order their identifiers were issued, and no identifier that is
    still to be issued is registered or in the log. *)
Record wf (c : Container) : Prop := mkWf {
  wf_sorted : StronglySorted lt (listeners c).*1;
  wf_listeners : Forall (λ i, (i < nextId c)%nat) (listeners c).*1;
  wf_notified : Forall (λ i, (i < nextId c)%nat) (notified c).*1;
}.

End Container.
End Store.

(** ** The program's store *)

(** The reducer as the container's transition function: every path through
    the switch returns an object. *)
Definition transition (s : option State) (a : Action) : option State :=
  Some (reducer s a).

(** The discriminators the switch has a case for. *)
Definition recognised (t : string) : Prop :=
  t = TOGGLE_SWITCH ∨ t = INCREASE ∨ t = DECREASE.

#[global] Instance recognised_dec t : Decision (recognised t).
Proof. unfold recognised. apply _. Defined.

(** [const store = createStore(reducer)]; [init] is the initialization action
    of the container. *)
Definition store {TListener : Type} (init : Action)
  : Store.Container (TState := State) (TListener := TListener) :=
  Store.create transition init None.

(** An initialization action as redux sends it: its discriminator lives in a
    name space of its own. *)
Definition redux_init : Action :=
  {| type := "@@redux/INIT"; difference := None |}.

(** The two listeners of [src/index.js]. *)
Inductive Listener : Type :=
  | render
  | listener.

(** ** The reducer on any state argument

    [reducer] above takes a state that is a [{toggle, counter}] object or is
    undefined.  JavaScript also lets [null] through the parameter default;
    this reading keeps it, and a call can end in a TypeError. *)

Module Dynamic.

(** What can be passed as [state]. *)
Inductive StateArg : Type :=
  | Undefined
  | Null
  | Object (o : State).

(** How a call of the reducer ends. *)
Inductive Completion : Type :=
  | Return (v : StateArg)
  | ThrowTypeError.

(** [function reducer(state = initialState, action)].  The default replaces
    [undefined] only; reading [state.toggle] or [state.counter] throws a
    TypeError when [state] is [null]; the [default] case reads nothing. *)
Definition reducer (state : StateArg) (action : Action) : Completion :=
  let state :=
    match state with
    | Undefined => Object initialState
    | _ => state
    end in
  if decide (type action = TOGGLE_SWITCH) then
    match state with
    | Object o => Return (Object (spread_toggle o (negb (toggle o))))
    | _ => ThrowTypeError
    end
  else if decide (type action = INCREASE) then
    match state with
    | Object o =>
        Return (Object (spread_counter o
                          (js_add (counter o) (to_number (difference action)))))
    | _ => ThrowTypeError
    end
  else if decide (type action = DECREASE) then
    match state with
    | Object o => Return (Object (spread_counter o (js_sub (counter o) (Num 1))))
    | _ => ThrowTypeError
    end
  else
    Return state.

(** The reducer as a container's transition function: a call that throws or
    returns [undefined] yields no state. *)
Definition transition (s : option StateArg) (a : Action) : option StateArg :=
  match reducer (default Undefined s) a with
  | Return Undefined => None
  | Return v => Some v
  | ThrowTypeError => None
  end.

(** [createStore(reducer)], and [createStore(reducer, preloaded)]. *)
Definition store {TListener : Type} (init : Action) (preloaded : option StateArg)
  : Store.Container (TState := StateArg) (TListener := TListener) :=
  Store.create transition init preloaded.

End Dynamic.

(** ** The script around the store

    What [src/index.js] does with the page: [render], [listener], the
    statements of the module body and the three click handlers.  The elements
    that [document.querySelector] looks up are taken to be on the page. *)

Module Script.

(** [String(n)], which assigning a number to a text property applies: the
    decimal digits of an integer, which is how integers below 10^21 in
    magnitude are printed. *)
Definition number_to_string (n : number) : string :=
  match n with
  | Num z => pretty z
  | NaN => "NaN"
  | Infinity => "Infinity"
  | NegInfinity => "-Infinity"
  end.

(** [classList.add(token)]: a token that is there already is not added
    again. *)
Definition classList_add (token : string) (classList : list string) : list string :=
  if decide (token ∈ classList) then classList else classList ++ [token].

(** [classList.remove(token)]. *)
Definition classList_remove (token : string) (classList : list string) : list string :=
  filter (λ t, t ≠ token) classList.

(** The two properties of the page that the script writes: the class list
    of [divToggle] and the text of [counter], the [h1] element. *)
Record Document : Type := mkDocument {
  divToggle_classList : list string;
  counter_innerText : string;
}.

(** Everything the script acts on: the store, the page and the console. *)
Record World : Type := mkWorld {
  w_store : Store.Container (TState := State) (TListener := Listener);
  w_document : Document;
  w_console : list string;
}.

(** [const render = () => { ... }].  [None] is the TypeError of reading
    [state.toggle] when [store.getState()] is undefined. *)
Definition render (w : World) : option World :=
  state ← Store.getState (w_store w);
  let classList :=
    if toggle state
    then classList_add "active" (divToggle_classList (w_document w))
    else classList_remove "active" (divToggle_classList (w_document w)) in
  Some {| w_store := w_store w;
          w_document :=
            {| divToggle_classList := classList;
               counter_innerText := number_to_string (counter state) |};
          w_console := w_console w |}.

(** [const listener = () => { console.log(...) }]. *)
Definition listener (w : World) : option World :=
  Some {| w_store := w_store w;
          w_document := w_document w;
          w_console := w_console w ++ ["상태가 업데이트 됨"] |}.

End Script.

(** Calling a registered listener. *)
Definition call_listener (l : Listener) (w : Script.World) : option Script.World :=
  match l with
  | render => Script.render w
  | listener => Script.listener w
  end.

(** One notification pass: the listeners are called in order, and a listener
    that throws ends the pass. *)
Fixpoint notify (ls : list Listener) (w : Script.World) : option Script.World :=
  match ls with
  | [] => Some w
  | l :: ls => w' ← call_listener l w; notify ls w'
  end.

(** [store.dispatch(action)] with the listeners run: the store takes the
    next state, then the registered listeners are called. *)
Definition store_dispatch (action : Action) (w : Script.World) : option Script.World :=
  c ← Store.dispatch transition action (Script.w_store w);
  notify (Store.listeners c).*2
    {| Script.w_store := c;
       Script.w_document := Script.w_document w;
       Script.w_console := Script.w_console w |}.

(** The module body of [src/index.js], from [createStore(reducer)] to the
    call of [unsubscribe]. *)
Definition index_js (init : Action) (page : Script.Document) : option Script.World :=
  let w := {| Script.w_store := store init;
              Script.w_document := page;
              Script.w_console := [] |} in
  w ← Script.render w;
  let c := (Store.subscribe render (Script.w_store w)).2 in
  let unsubscribe := (Store.subscribe listener c).1 in
  let c := (Store.subscribe listener c).2 in
  let c := Store.unsubscribe unsubscribe c in
  Some {| Script.w_store := c;
          Script.w_document := Script.w_document w;
          Script.w_console := Script.w_console w |}.

(** The elements that have a click handler. *)
Inductive Button : Type :=
  | divToggle
  | btnIncrease
  | btnDecrease.

(** The action a click dispatches. *)
Definition clicked (b : Button) : Action :=
  match b with
  | divToggle => toggleSwitch
  | btnIncrease => increase (Some (Num 1))
  | btnDecrease => decrease
  end.

(** [divToggle.onclick], [btnIncrease.onclick], [btnDecrease.onclick]. *)
Definition onclick (b : Button) (w : Script.World) : option Script.World :=
  store_dispatch (clicked b) w.

(** A sequence of clicks. *)
Fixpoint clicks (bs : list Button) (w : Script.World) : option Script.World :=
  match bs with
  | [] => Some w
  | b :: bs => w' ← onclick b w; clicks bs w'
  end.

(** The module body followed by a sequence of clicks. *)
Definition session (init : Action) (page : Script.Document) (bs : list Button)
  : option Script.World :=
  w ← index_js init page; clicks bs w.

#[global] Instance Button_eq_dec : EqDecision Button.
Proof. solve_decision. Defined.

(** How many clicks of a list went to one button. *)
Definition count_clicks (b : Button) (bs : list Button) : nat :=
  length (filter (λ x, x = b) bs).

(** The page shows a state: [divToggle] has the class [active] exactly when
    the flag is set, has the other classes it had in [classList0], and the
    [h1] element holds the counter as text. *)
Definition shows (classList0 : list string) (d : Script.Document) (s : State) : Prop :=
  ("active" ∈ Script.divToggle_classList d ↔ toggle s = true)
  ∧ (∀ t, t ≠ "active" → t ∈ Script.divToggle_classList d ↔ t ∈ classList0)
  ∧ Script.counter_innerText d = Script.number_to_string (counter s).

(** The script between two clicks: the store holds [s], [render] is the one
    registered listener and has been called [k] times by the store, nothing
    has been logged, and the page shows [s]. *)
Definition settled (classList0 : list string) (k : nat) (s : State)
    (w : Script.World) : Prop :=
  Store.getState (Script.w_store w) = Some s
  ∧ Store.listeners (Script.w_store w) = [(0%nat, render)]
  ∧ Store.notified (Script.w_store w) = replicate k (0%nat, render)
  ∧ Script.w_console w = []
  ∧ shows classList0 (Script.w_document w) s.

(** ** Reading a list of actions *)

(** What an action adds to a counter that holds an integer, when its payload
    holds one too. *)
Definition delta (a : Action) : Z :=
  if decide (type a = TOGGLE_SWITCH) then 0
  else if decide (type a = INCREASE) then
    match difference a with
    | Some (Num d) => d
    | _ => 0
    end
  else if decide (type a = DECREASE) then -1
  else 0.

(** An INCREASE action whose payload is an integer; other actions have no
    condition on them. *)
Definition numeric (a : Action) : Prop :=
  type a = INCREASE → ∃ d, difference a = Some (Num d).

Definition net (actions : list Action) : Z :=
  foldr Z.add 0 (delta <$> actions).

(** How far a list of actions can move a counter, in either direction. *)
Definition weight (actions : list Action) : Z :=
  foldr Z.add 0 ((λ a, Z.abs (delta a)) <$> actions).

Definition toggles (actions : list Action) : nat :=
  length (filter (λ a, type a = TOGGLE_SWITCH) actions).

(** * Properties *)

Example reducer_toggle_ex :
  reducer None toggleSwitch = {| toggle := true; counter := Num 0 |}.
Proof. reflexivity. Qed.

Example heap_reducer_ex :
  Heap.reducer Heap.module_heap None (increase (Some (Num 1)))
  = Some (1%nat, <[1%nat := {| toggle := false; counter := Num 1 |}]> Heap.module_heap).
Proof. vm_compute. reflexivity. Qed.

(** The calls of [src/index.js] up to three clicks: [render] is subscribed
    and stays, [listener] is subscribed and unsubscribed at once. *)
Example index_js_run :
  let c := Store.run transition (store redux_init)
             [Store.GetState; Store.Subscribe render;
              Store.Subscribe listener; Store.Unsubscribe 1%nat;
              Store.Dispatch toggleSwitch;
              Store.Dispatch (increase (Some (Num 1)));
              Store.Dispatch decrease] in
  Store.getState c = Some {| toggle := true; counter := Num 0 |}
  ∧ Store.notified c = [(0%nat, render); (0%nat, render); (0%nat, render)]
  ∧ Store.calls_of 1%nat c = 0%nat.
Proof. vm_compute. split_and!; reflexivity. Qed.

(** ** Lists of registrations *)

Section Registrations.

Context {TListener : Type}.
Implicit Types (ls : list (nat * TListener)) (id : nat).

Lemma filter_id_absent ls id :
  id ∉ ls.*1 → filter (λ r, r.1 = id) ls = [].
Proof.
  induction ls as [|[i l] ls IH]; [done|]; cbn [fmap list_fmap fst]; intros Hid.
  apply not_elem_of_cons in Hid as [Hne Hid].
  rewrite filter_cons_False; [|cbn; congruence].
  by apply IH.
Qed.

Lemma filter_id_sorted ls id :
  StronglySorted lt ls.*1 → id ∈ ls.*1 →
  length (filter (λ r, r.1 = id) ls) = 1%nat.
Proof.
  induction ls as [|[i l] ls IH]; cbn [fmap list_fmap fst]; intros Hs Hid.
  - by apply elem_of_nil in Hid.
  - apply StronglySorted_inv in Hs as [Hs Hall].
    destruct (decide (i = id)) as [->|Hne].
    + rewrite filter_cons_True; [|done]. cbn [length]. f_equal.
      rewrite filter_id_absent; [done|].
      intros Hin. rewrite Forall_forall in Hall.
      specialize (Hall _ Hin). lia.
    + rewrite filter_cons_False; [|done].
      apply elem_of_cons in Hid as [->|Hid]; [done|].
      by apply IH.
Qed.

Lemma filter_ne_absent ls id :
  id ∉ ls.*1 → filter (λ r, r.1 ≠ id) ls = ls.
Proof.
  induction ls as [|[i l] ls IH]; [done|]; cbn [fmap list_fmap fst]; intros Hid.
  apply not_elem_of_cons in Hid as [Hne Hid].
  rewrite filter_cons_True; [|cbn; congruence].
  f_equal. by apply IH.
Qed.

Lemma fst_filter_ne ls id :
  (filter (λ r, r.1 ≠ id) ls).*1 = filter (λ i, i ≠ id) ls.*1.
Proof.
  induction ls as [|[i l] ls IH]; [done|]; cbn [fmap list_fmap fst].
  destruct (decide (i ≠ id)).
  - rewrite !filter_cons_True by done. cbn. by f_equal.
  - rewrite !filter_cons_False by done. done.
Qed.

End Registrations.

Section Sorting.

Context {X : Type} (P : X → Prop) `{!∀ x, Decision (P x)}.

Lemma Forall_filter_keep (Q : X → Prop) (l : list X) :
  Forall Q l → Forall Q (filter P l).
Proof.
  rewrite !Forall_forall. intros HQ x Hx.
  apply list_elem_of_filter in Hx as [_ Hx]. by apply HQ.
Qed.

Lemma StronglySorted_filter_keep (R : relation X) (l : list X) :
  StronglySorted R l → StronglySorted R (filter P l).
Proof.
  induction 1 as [|x l Hs IH Hall]; [constructor|].
  destruct (decide (P x)).
  - rewrite filter_cons_True by done.
    constructor; [done|]. by apply Forall_filter_keep.
  - by rewrite filter_cons_False.
Qed.

End Sorting.

(** ** The container, for any transition function *)

Section StoreFacts.

Context {TState TAction TListener : Type}.
Variable transitionFn : option TState → TAction → option TState.

Implicit Types (c : Store.Container (TState := TState) (TListener := TListener)).
Implicit Types (o : Store.call (TAction := TAction) (TListener := TListener)).
Implicit Types (id : nat).

Local Abbreviation step := (Store.step transitionFn).
Local Abbreviation run := (Store.run transitionFn).

Lemma run_app c xs ys : run c (xs ++ ys) = run (run c xs) ys.
Proof. apply fold_left_app. Qed.

Lemma run_cons c o os : run c (o :: os) = run (step c o) os.
Proof. reflexivity. Qed.

Lemma wf_create INIT initial :
  Store.wf (Store.create transitionFn INIT initial : Store.Container (TListener := TListener)).
Proof. split; cbn; constructor. Qed.

Lemma wf_step c o : Store.wf c → Store.wf (step c o).
Proof.
  intros [Hs Hl Hn]. destruct o as [a|l|id|]; cbn; [| | |done].
  - unfold Store.dispatch.
    destruct (transitionFn (Store.currentState c) a); cbn; [|done].
    split; cbn; [done..|].
    rewrite fmap_app. by apply Forall_app.
  - split; cbn.
    + rewrite fmap_app. apply StronglySorted_app_2; [|done|repeat constructor].
      intros i j Hi Hj. apply list_elem_of_singleton in Hj as ->.
      rewrite Forall_forall in Hl. by apply Hl.
    + rewrite fmap_app. apply Forall_app. split.
      * eapply Forall_impl; [done|]. cbn. lia.
      * repeat constructor.
    + eapply Forall_impl; [done|]. cbn. lia.
  - split; cbn; [| |done]; rewrite fst_filter_ne.
    + by apply StronglySorted_filter_keep.
    + by apply Forall_filter_keep.
Qed.

Lemma wf_run c os : Store.wf c → Store.wf (run c os).
Proof.
  revert c. induction os as [|o os IH]; intros c Hc; [done|].
  rewrite run_cons. apply IH. by apply wf_step.
Qed.

(** Invoking a handle whose registration is gone changes nothing. *)
Lemma unsubscribe_unregistered c id :
  ¬ Store.registered id c → Store.unsubscribe id c = c.
Proof.
  intros Hid. destruct c as [s ls n log]. unfold Store.unsubscribe; cbn.
  f_equal. by apply filter_ne_absent.
Qed.

Lemma unsubscribe_not_registered c id :
  ¬ Store.registered id (Store.unsubscribe id c).
Proof.
  unfold Store.registered, Store.unsubscribe; cbn.
  rewrite fst_filter_ne. intros Hin.
  apply list_elem_of_filter in Hin as [Hne _]. done.
Qed.

(** A registration that is gone is never notified again, whatever is
    called afterwards, and its identifier is not issued a second time. *)
Lemma calls_of_unregistered os : ∀ c id,
  Store.wf c → (id < Store.nextId c)%nat → ¬ Store.registered id c →
  Store.calls_of id (run c os) = Store.calls_of id c
  ∧ ¬ Store.registered id (run c os).
Proof.
  induction os as [|o os IH]; intros c id Hwf Hlt Hid; [done|].
  rewrite run_cons.
  assert (Store.wf (step c o)) as Hwf' by by apply wf_step.
  assert ((id < Store.nextId (step c o))%nat
          ∧ ¬ Store.registered id (step c o)
          ∧ Store.calls_of id (step c o) = Store.calls_of id c) as (Hlt' & Hid' & Hc).
  { destruct o as [a|l|id'|]; cbn; [| | |done].
    - unfold Store.dispatch.
      destruct (transitionFn (Store.currentState c) a); cbn; [|done].
      split_and!; [done..|].
      unfold Store.calls_of; cbn.
      rewrite filter_app, length_app, (filter_id_absent (Store.listeners c)) by done.
      cbn. lia.
    - split_and!; [lia| |done].
      unfold Store.registered; cbn. rewrite fmap_app.
      intros [Hin|Hin]%elem_of_app; [done|].
      apply list_elem_of_singleton in Hin. cbn in Hin. lia.
    - split_and!; [done| |done].
      unfold Store.registered; cbn. rewrite fst_filter_ne.
      intros [_ Hin]%list_elem_of_filter. done. }
  destruct (IH _ _ Hwf' Hlt' Hid') as [IH1 IH2].
  split; [congruence|done].
Qed.

(** While a registration stands and the transition function always
    yields a state, every dispatch notifies it exactly once. *)
Lemma calls_of_registered os : ∀ c id,
  (∀ s a, is_Some (transitionFn s a)) →
  Store.wf c → Store.registered id c →
  Forall (λ o, Store.is_unsubscribe id o = false) os →
  Store.calls_of id (run c os)
    = (Store.calls_of id c + length (Store.dispatched os))%nat
  ∧ Store.registered id (run c os).
Proof.
  induction os as [|o os IH]; intros c id Htot Hwf Hid Hos.
  { cbn. split; [lia|done]. }
  apply Forall_cons in Hos as [Ho Hos].
  rewrite run_cons.
  assert (Store.wf (step c o)) as Hwf' by by apply wf_step.
  assert (Store.registered id (step c o)
          ∧ Store.calls_of id (step c o)
            = (Store.calls_of id c + length (Store.dispatched [o]))%nat)
    as (Hid' & Hc).
  { destruct o as [a|l|id'|]; cbn; [| | |split; [done|unfold Store.calls_of; cbn; lia]].
    - unfold Store.dispatch.
      destruct (Htot (Store.currentState c) a) as [next ->]; cbn.
      split; [done|].
      unfold Store.calls_of; cbn.
      rewrite filter_app, length_app.
      rewrite (filter_id_sorted (Store.listeners c)); [done| |done].
      by destruct Hwf.
    - split; [|unfold Store.calls_of; cbn; lia].
      unfold Store.registered; cbn. rewrite fmap_app.
      apply elem_of_app. by left.
    - split; [|unfold Store.calls_of; cbn; lia].
      unfold Store.registered; cbn. rewrite fst_filter_ne.
      apply list_elem_of_filter. split; [|done].
      cbn in Ho. apply bool_decide_eq_false in Ho. congruence. }
  destruct (IH _ _ Htot Hwf' Hid' Hos) as [IH1 IH2].
  split; [|done].
  rewrite IH1, Hc. change (o :: os) with ([o] ++ os).
  unfold Store.dispatched. rewrite omap_app, length_app. lia.
Qed.

End StoreFacts.

(** ** Numbers *)

(** Up to [MAX_SAFE_INTEGER] in magnitude nothing is rounded. *)
Lemma round_binary64_safe z :
  Z.abs z ≤ MAX_SAFE_INTEGER → round_binary64 z = Num z.
Proof.
  unfold MAX_SAFE_INTEGER. intros Hz.
  assert (Z.log2 (Z.abs z) - 52 ≤ 0) as He.
  { destruct (decide (Z.abs z = 0)) as [->|Hne]; [done|].
    assert (Z.log2 (Z.abs z) < 53); [|lia].
    apply Z.log2_lt_pow2; [lia|].
    change (2 ^ 53) with 9007199254740992. lia. }
  apply Z.leb_le in He. unfold round_binary64. cbv zeta. by rewrite He.
Qed.

Lemma js_add_safe x y :
  Z.abs (x + y) ≤ MAX_SAFE_INTEGER → js_add (Num x) (Num y) = Num (x + y).
Proof. apply round_binary64_safe. Qed.

Lemma js_sub_safe x y :
  Z.abs (x - y) ≤ MAX_SAFE_INTEGER → js_sub (Num x) (Num y) = Num (x - y).
Proof. apply round_binary64_safe. Qed.

Example round_binary64_ties :
  round_binary64 (2 ^ 53 + 1) = Num (2 ^ 53)
  ∧ round_binary64 (2 ^ 53 + 3) = Num (2 ^ 53 + 4)
  ∧ round_binary64 (- 2 ^ 53 - 1) = Num (- 2 ^ 53)
  ∧ round_binary64 (2 ^ 1024 - 2 ^ 970 - 1) = Num (2 ^ 1024 - 2 ^ 971)
  ∧ round_binary64 (2 ^ 1024 - 2 ^ 970) = Infinity.
Proof. vm_compute. split_and!; reflexivity. Qed.

(** ** The switch *)

(** Case analysis on the discriminator, in the order of the [case] labels. *)
Ltac switch_cases :=
  unfold reducer, Heap.reducer; cbn [default];
  repeat case_decide;
  unfold TOGGLE_SWITCH, INCREASE, DECREASE in *;
  try done; try congruence.

Lemma reducer_TOGGLE_SWITCH s a :
  type a = TOGGLE_SWITCH →
  reducer (Some s) a = spread_toggle s (negb (toggle s)).
Proof. intros Ha. switch_cases. Qed.

Lemma reducer_INCREASE s a :
  type a = INCREASE →
  reducer (Some s) a
  = spread_counter s (js_add (counter s) (to_number (difference a))).
Proof. intros Ha. switch_cases. Qed.

Lemma reducer_DECREASE s a :
  type a = DECREASE →
  reducer (Some s) a = spread_counter s (js_sub (counter s) (Num 1)).
Proof. intros Ha. switch_cases. Qed.

Lemma reducer_default s a :
  ¬ recognised (type a) → reducer (Some s) a = s.
Proof.
  unfold recognised. intros Ha. switch_cases; exfalso; apply Ha; auto.
Qed.

Lemma spread_toggle_twice s :
  spread_toggle (spread_toggle s (negb (toggle s)))
    (negb (toggle (spread_toggle s (negb (toggle s))))) = s.
Proof. destruct s as [t n]. unfold spread_toggle; cbn. by rewrite negb_involutive. Qed.

Lemma reducer_undefined a :
  reducer None a = reducer (Some initialState) a.
Proof. reflexivity. Qed.

(** ** The object store *)

Lemma alloc_fresh o (h : gmap nat State) : h !! (Heap.alloc o h).1 = None.
Proof. cbn. apply not_elem_of_dom. apply is_fresh. Qed.

Lemma alloc_lookup o (h : gmap nat State) :
  (Heap.alloc o h).2 !! (Heap.alloc o h).1 = Some o.
Proof. cbn. apply lookup_insert_eq. Qed.

Lemma alloc_frame o (h : gmap nat State) q x :
  h !! q = Some x → (Heap.alloc o h).2 !! q = Some x.
Proof.
  intros Hq. cbn. rewrite lookup_insert_ne; [done|].
  intros <-. pose proof (alloc_fresh o h) as Hf. cbn in Hf. congruence.
Qed.

(** What a call of the reducer does to the store: it reads the object behind
    [state] (behind [initialState] when [state] is undefined), leaves every
    object as it was, and returns a reference to the object that [reducer]
    computes by value; on a recognised action that object is a new one, on
    any other action it is the reference that came in. *)
Lemma heap_reducer_value (h : gmap nat State) state a o :
  h !! default Heap.initialState_ref state = Some o →
  ∃ r' h',
    Heap.reducer h state a = Some (r', h')
    ∧ h' !! r' = Some (reducer (Some o) a)
    ∧ (∀ q x, h !! q = Some x → h' !! q = Some x)
    ∧ (recognised (type a) → h !! r' = None)
    ∧ (¬ recognised (type a) →
       r' = default Heap.initialState_ref state ∧ h' = h).
Proof.
  intros Ho. unfold recognised.
  unfold reducer, Heap.reducer; cbn [default].
  repeat case_decide; rewrite ?Ho; cbn [mbind option_bind].
  all: eexists _, _; split; [reflexivity|].
  all: split_and!.
  all: try (apply alloc_lookup).
  all: try (intros q x Hq; by apply alloc_frame).
  all: try (intros _; apply not_elem_of_dom, is_fresh).
  all: try (intros [?|[?|?]]; congruence).
  all: try (intros Hn; exfalso; apply Hn; by auto).
  all: try done.
Qed.

(** ** The program's store *)

Section ProgramStore.

Context {TListener : Type}.
Implicit Types (c : Store.Container (TState := State) (TListener := TListener)).
Implicit Types (calls : list (Store.call (TAction := Action) (TListener := TListener))).

Lemma transition_total s a : is_Some (transition s a).
Proof. by eexists. Qed.

Lemma step_getState c o s :
  Store.getState c = Some s →
  Store.getState (Store.step transition c o)
  = Some (replay s (Store.dispatched [o])).
Proof.
  unfold Store.getState. intros Hs. destruct o as [a| | |]; cbn; [|done..].
  unfold Store.dispatch, transition; cbn. by rewrite Hs.
Qed.

Lemma replay_app s xs ys : replay s (xs ++ ys) = replay (replay s xs) ys.
Proof. apply fold_left_app. Qed.

(** Between two calls the current state is the replay of the actions
    dispatched so far. *)
Lemma run_getState calls : ∀ c s,
  Store.getState c = Some s →
  Store.getState (Store.run transition c calls)
  = Some (replay s (Store.dispatched calls)).
Proof.
  induction calls as [|o calls IH]; intros c s Hs; [done|].
  rewrite run_cons.
  rewrite (IH _ _ (step_getState c o s Hs)).
  change (o :: calls) with ([o] ++ calls).
  unfold Store.dispatched. by rewrite omap_app, replay_app.
Qed.

Lemma store_getState init :
  ¬ recognised (type init) →
  Store.getState (store (TListener := TListener) init) = Some initialState.
Proof.
  intros Hinit. unfold store, Store.create, Store.getState, transition; cbn.
  by rewrite reducer_undefined, reducer_default.
Qed.

Lemma dispatched_Dispatch (actions : list Action) :
  Store.dispatched (TListener := TListener) (Store.Dispatch <$> actions) = actions.
Proof. induction actions as [|a actions IH]; cbn; by f_equal. Qed.

End ProgramStore.

(** C1. For every sequence of actions dispatched in order to the store
    created with the reducer, [getState()] afterwards is the left fold of the
    reducer over the actions from [{toggle: false, counter: 0}]; and between
    any two calls on the store (dispatches, subscriptions, unsubscriptions,
    reads), the current state is that fold over all actions dispatched so
    far. *)
Theorem store_state_is_replay {TListener : Type}
    (init : Action) (actions : list Action)
    (calls : list (Store.call (TAction := Action) (TListener := TListener))) :
  ¬ recognised (type init) →
  Store.getState
    (Store.run transition (store init)
       (Store.Dispatch (TListener := TListener) <$> actions))
  = Some (fold_left (λ s a, reducer (Some s) a) actions
            {| toggle := false; counter := Num 0 |})
  ∧ Store.getState (Store.run transition (store init) calls)
    = Some (fold_left (λ s a, reducer (Some s) a) (Store.dispatched calls)
              {| toggle := false; counter := Num 0 |}).
Proof.
  intros Hinit. pose proof (store_getState (TListener := TListener) init Hinit) as H0.
  split.
  - rewrite (run_getState _ _ _ H0). by rewrite dispatched_Dispatch.
  - by rewrite (run_getState _ _ _ H0).
Qed.

Lemma store_state_is_replay_witness :
  ¬ recognised (type redux_init)
  ∧ Store.getState
      (Store.run transition (store redux_init)
         [Store.Subscribe render; Store.Dispatch toggleSwitch;
          Store.GetState; Store.Dispatch (increase (Some (Num 3)));
          Store.Unsubscribe 0%nat; Store.Dispatch decrease])
    = Some {| toggle := true; counter := Num 2 |}.
Proof.
  assert (¬ recognised (type redux_init)) as Hinit
    by (apply (bool_decide_unpack _); vm_compute; exact I).
  split; [exact Hinit|].
  destruct (store_state_is_replay (TListener := Listener) redux_init []
              [Store.Subscribe render; Store.Dispatch toggleSwitch;
               Store.GetState; Store.Dispatch (increase (Some (Num 3)));
               Store.Unsubscribe 0%nat; Store.Dispatch decrease] Hinit)
    as [_ H].
  rewrite H. vm_compute. reflexivity.
Defined.

(** C2. From [{toggle: false, counter: 0}] the reducer on a toggle action
    gives [{toggle: true, counter: 0}], then on an increase action with
    difference 3 gives [{toggle: true, counter: 3}], then on a decrease
    action gives [{toggle: true, counter: 2}]. *)
Theorem scenario_toggle_increase_decrease :
  initialState = {| toggle := false; counter := Num 0 |}
  ∧ reducer (Some {| toggle := false; counter := Num 0 |}) toggleSwitch
    = {| toggle := true; counter := Num 0 |}
  ∧ reducer (Some {| toggle := true; counter := Num 0 |}) (increase (Some (Num 3)))
    = {| toggle := true; counter := Num 3 |}
  ∧ reducer (Some {| toggle := true; counter := Num 3 |}) decrease
    = {| toggle := true; counter := Num 2 |}
  ∧ replay initialState [toggleSwitch; increase (Some (Num 3)); decrease]
    = {| toggle := true; counter := Num 2 |}.
Proof. split_and!; reflexivity. Qed.

(** C3 (amended). For every state, the reducer on a DECREASE action ignores
    whatever payload the action carries and gives the previous counter minus
    one as binary64 computes it, which is exactly the previous counter minus
    one whenever that is a safe integer; on an INCREASE action it gives the
    previous counter plus the action's [difference] as binary64 computes it,
    exactly their sum whenever that is a safe integer. *)
Theorem decrease_ignores_payload_increase_adds_it
    (s : State) (dec inc : Action) :
  type dec = DECREASE →
  type inc = INCREASE →
  (reducer (Some s) dec = reducer (Some s) decrease
   ∧ counter (reducer (Some s) dec) = js_sub (counter s) (Num 1)
   ∧ ∀ n, counter s = Num n → Z.abs (n - 1) ≤ MAX_SAFE_INTEGER →
       counter (reducer (Some s) dec) = Num (n - 1))
  ∧ (counter (reducer (Some s) inc)
     = js_add (counter s) (to_number (difference inc))
     ∧ ∀ n d, counter s = Num n → difference inc = Some (Num d) →
         Z.abs (n + d) ≤ MAX_SAFE_INTEGER →
         counter (reducer (Some s) inc) = Num (n + d)).
Proof.
  intros Hdec Hinc.
  rewrite (reducer_DECREASE s dec Hdec), (reducer_DECREASE s decrease eq_refl).
  rewrite (reducer_INCREASE s inc Hinc). cbn [counter spread_counter].
  split_and!; [done|done| |done|].
  - intros n -> Hn. by apply js_sub_safe.
  - intros n d -> -> Hn. by apply js_add_safe.
Qed.

Lemma decrease_ignores_payload_increase_adds_it_witness :
  counter (reducer (Some {| toggle := true; counter := Num 5 |})
             {| type := DECREASE; difference := Some (Num 40) |}) = Num 4
  ∧ counter (reducer (Some {| toggle := true; counter := Num 5 |})
               (increase (Some (Num 3)))) = Num 8.
Proof.
  destruct (decrease_ignores_payload_increase_adds_it
              {| toggle := true; counter := Num 5 |}
              {| type := DECREASE; difference := Some (Num 40) |}
              (increase (Some (Num 3))) eq_refl eq_refl)
    as [(_ & _ & Hd) (_ & Hi)].
  split.
  - apply (Hd 5); [reflexivity|]. vm_compute. discriminate.
  - apply (Hi 5 3); [reflexivity|reflexivity|]. vm_compute. discriminate.
Defined.

(** C3 as first stated fails where binary64 rounds: at counter -2^53 a
    DECREASE leaves the counter at -2^53, not at -2^53 - 1, and at counter
    2^53 an INCREASE by 1 leaves it at 2^53. *)
Lemma decrease_and_increase_round_at_2_53 :
  counter (reducer (Some {| toggle := false; counter := Num (-9007199254740992) |})
             decrease)
  = Num (-9007199254740992)
  ∧ counter (reducer (Some {| toggle := false; counter := Num (-9007199254740992) |})
               decrease)
    ≠ Num (-9007199254740992 - 1)
  ∧ counter (reducer (Some {| toggle := false; counter := Num 9007199254740992 |})
               (increase (Some (Num 1))))
    ≠ Num (9007199254740992 + 1).
Proof. vm_compute. split_and!; [reflexivity|discriminate|discriminate]. Qed.

(** C4. For every state and every action whose discriminator is none of
    TOGGLE_SWITCH, INCREASE, DECREASE, the reducer returns the state it was
    given: equal by value, and in the object store the very reference that
    came in, with the store untouched. *)
Theorem unrecognised_action_keeps_state
    (s : State) (a : Action) (h : gmap nat State) (r : nat) :
  ¬ recognised (type a) →
  reducer (Some s) a = s
  ∧ Heap.reducer h (Some r) a = Some (r, h).
Proof.
  intros Ha. split; [by apply reducer_default|].
  unfold recognised in Ha. switch_cases; exfalso; apply Ha; auto.
Qed.

Lemma unrecognised_action_keeps_state_witness :
  ¬ recognised (type {| type := "RESET"; difference := Some (Num 9) |})
  ∧ reducer (Some {| toggle := true; counter := Num 7 |})
      {| type := "RESET"; difference := Some (Num 9) |}
    = {| toggle := true; counter := Num 7 |}
  ∧ Heap.reducer Heap.module_heap (Some Heap.initialState_ref)
      {| type := "RESET"; difference := Some (Num 9) |}
    = Some (Heap.initialState_ref, Heap.module_heap).
Proof.
  assert (¬ recognised (type {| type := "RESET"; difference := Some (Num 9) |}))
    as Ha by (apply (bool_decide_unpack _); vm_compute; exact I).
  split; [exact Ha|].
  exact (unrecognised_action_keeps_state
           {| toggle := true; counter := Num 7 |}
           {| type := "RESET"; difference := Some (Num 9) |}
           Heap.module_heap Heap.initialState_ref Ha).
Defined.

(** C5. Called with an undefined state, the reducer works on the fixed
    initial value [{toggle: false, counter: 0}] (the parameter default), so
    the store created without an initial state holds
    [{toggle: false, counter: 0}] until an action is dispatched. *)
Theorem absent_state_defaults_to_initialState {TListener : Type}
    (a init : Action) (h : gmap nat State)
    (calls : list (Store.call (TAction := Action) (TListener := TListener))) :
  ¬ recognised (type init) →
  Store.dispatched calls = [] →
  reducer None a = reducer (Some {| toggle := false; counter := Num 0 |}) a
  ∧ Heap.reducer h None a = Heap.reducer h (Some Heap.initialState_ref) a
  ∧ Store.getState (store (TListener := TListener) init)
    = Some {| toggle := false; counter := Num 0 |}
  ∧ Store.getState (Store.run transition (store init) calls)
    = Some {| toggle := false; counter := Num 0 |}.
Proof.
  intros Hinit Hcalls.
  pose proof (store_getState (TListener := TListener) init Hinit) as H0.
  split_and!; [done|done|done|].
  by rewrite (run_getState _ _ _ H0), Hcalls.
Qed.

Lemma absent_state_defaults_to_initialState_witness :
  ¬ recognised (type redux_init)
  ∧ Store.getState
      (Store.run transition (store redux_init)
         [Store.GetState; Store.Subscribe render; Store.Subscribe listener;
          Store.Unsubscribe 1%nat])
    = Some {| toggle := false; counter := Num 0 |}.
Proof.
  assert (¬ recognised (type redux_init)) as Hinit
    by (apply (bool_decide_unpack _); vm_compute; exact I).
  split; [exact Hinit|].
  apply (absent_state_defaults_to_initialState (TListener := Listener)
           toggleSwitch redux_init Heap.module_heap
           [Store.GetState; Store.Subscribe render; Store.Subscribe listener;
            Store.Unsubscribe 1%nat] Hinit eq_refl).
Defined.

(** C6. After [subscribe(listener)], every dispatch made while the
    registration stands calls the listener exactly once, the listeners of one
    dispatch being called in subscription order; once the returned handle has
    been invoked, no later dispatch calls the listener through that
    registration; and invoking the handle once more changes nothing. *)
Theorem listener_once_per_dispatch_until_unsubscribed {TListener : Type}
    (init a : Action) (l l' : TListener)
    (before during after : list (Store.call (TAction := Action) (TListener := TListener))) :
  let c0 := Store.run transition (store init) before in
  let id := (Store.subscribe l c0).1 in
  let c1 := (Store.subscribe l c0).2 in
  let c2 := Store.run transition c1 during in
  let c3 := Store.run transition c1 (during ++ Store.Unsubscribe id :: after) in
  Forall (λ o, Store.is_unsubscribe id o = false) during →
  Store.calls_of id c2 = length (Store.dispatched during)
  ∧ (∃ c', Store.dispatch transition a c2 = Some c'
       ∧ Store.notified c' = Store.notified c2 ++ Store.listeners c2
       ∧ Store.calls_of id c' = S (Store.calls_of id c2))
  ∧ StronglySorted lt (Store.listeners c2).*1
  ∧ (id < (Store.subscribe l' c2).1)%nat
  ∧ Store.calls_of id c3 = length (Store.dispatched during)
  ∧ Store.unsubscribe id c3 = c3.
Proof.
  intros c0 id c1 c2 c3 Hduring.
  assert (Store.wf c0) as Hwf0 by apply wf_run, wf_create.
  assert (Store.wf c1) as Hwf1 by apply (wf_step transition c0 (Store.Subscribe l) Hwf0).
  assert (Store.registered id c1) as Hreg1.
  { unfold Store.registered, c1, id; cbn. rewrite fmap_app.
    apply elem_of_app. right. by apply list_elem_of_singleton. }
  assert (Store.calls_of id c1 = 0%nat) as Hcalls1.
  { unfold Store.calls_of, c1, id; cbn.
    rewrite filter_id_absent; [done|].
    intros Hin. destruct Hwf0 as [_ _ Hn]. rewrite Forall_forall in Hn.
    specialize (Hn _ Hin). lia. }
  destruct (calls_of_registered transition during c1 id
              transition_total Hwf1 Hreg1 Hduring) as [Hcalls2 Hreg2].
  fold c2 in Hcalls2, Hreg2. rewrite Hcalls1 in Hcalls2. cbn in Hcalls2.
  assert (Store.wf c2) as Hwf2 by by apply wf_run.
  assert (id < Store.nextId c2)%nat as Hlt2.
  { destruct Hwf2 as [_ Hl _]. rewrite Forall_forall in Hl. by apply Hl. }
  split_and!.
  - done.
  - eexists. split; [reflexivity|]. split; [reflexivity|].
    unfold Store.calls_of; cbn.
    rewrite filter_app, length_app.
    rewrite (filter_id_sorted (Store.listeners c2)); [lia| |done].
    by destruct Hwf2.
  - by destruct Hwf2.
  - done.
  - unfold c3. rewrite run_app, run_cons. fold c2. cbn [Store.step].
    destruct (calls_of_unregistered transition after (Store.unsubscribe id c2) id)
      as [Hc _].
    + apply (wf_step transition c2 (Store.Unsubscribe id) Hwf2).
    + done.
    + apply unsubscribe_not_registered.
    + by rewrite Hc.
  - apply unsubscribe_unregistered.
    unfold c3. rewrite run_app, run_cons. fold c2. cbn [Store.step].
    apply (calls_of_unregistered transition after (Store.unsubscribe id c2) id).
    + apply (wf_step transition c2 (Store.Unsubscribe id) Hwf2).
    + done.
    + apply unsubscribe_not_registered.
Qed.

Lemma listener_once_per_dispatch_until_unsubscribed_witness :
  Forall (λ o : Store.call (TAction := Action) (TListener := Listener),
            Store.is_unsubscribe 1%nat o = false)
    [Store.Dispatch toggleSwitch; Store.Unsubscribe 0%nat;
     Store.Dispatch (increase (Some (Num 1)))]
  ∧ Store.calls_of 1%nat
      (Store.run transition
         (Store.subscribe listener
            (Store.run transition (store redux_init) [Store.Subscribe render])).2
         ([Store.Dispatch toggleSwitch; Store.Unsubscribe 0%nat;
           Store.Dispatch (increase (Some (Num 1)))]
          ++ Store.Unsubscribe 1%nat
             :: [Store.Dispatch decrease; Store.Unsubscribe 1%nat;
                 Store.Dispatch decrease]))
    = 2%nat.
Proof.
  assert (Forall (λ o : Store.call (TAction := Action) (TListener := Listener),
                    Store.is_unsubscribe 1%nat o = false)
            [Store.Dispatch toggleSwitch; Store.Unsubscribe 0%nat;
             Store.Dispatch (increase (Some (Num 1)))]) as Hduring
    by (repeat constructor).
  split; [exact Hduring|].
  apply (listener_once_per_dispatch_until_unsubscribed
           redux_init decrease listener render
           [Store.Subscribe render]
           [Store.Dispatch toggleSwitch; Store.Unsubscribe 0%nat;
            Store.Dispatch (increase (Some (Num 1)))]
           [Store.Dispatch decrease; Store.Unsubscribe 1%nat;
            Store.Dispatch decrease] Hduring).
Defined.

(** C7. The reducer never changes the object it is given (nor any other
    object of the store), and a transition changes one field only: a
    TOGGLE_SWITCH action leaves [counter] as it was, INCREASE and DECREASE
    actions leave [toggle] as it was; the changed state is a new object. *)
Theorem reducer_changes_one_field_without_mutation
    (h : gmap nat State) (r : nat) (o : State) (a : Action) :
  h !! r = Some o →
  ∃ r' h',
    Heap.reducer h (Some r) a = Some (r', h')
    ∧ (∀ q x, h !! q = Some x → h' !! q = Some x)
    ∧ h' !! r' = Some (reducer (Some o) a)
    ∧ (recognised (type a) → h !! r' = None ∧ r' ≠ r)
    ∧ (type a = TOGGLE_SWITCH →
       counter (reducer (Some o) a) = counter o
       ∧ toggle (reducer (Some o) a) = negb (toggle o))
    ∧ (type a = INCREASE ∨ type a = DECREASE →
       toggle (reducer (Some o) a) = toggle o).
Proof.
  intros Ho.
  destruct (heap_reducer_value h (Some r) a o Ho) as (r' & h' & Hr & Hv & Hf & Hnew & _).
  exists r', h'. split_and!; [done..| | |].
  - intros Ha. split; [by apply Hnew|].
    intros ->. specialize (Hnew Ha). congruence.
  - intros Ha. by rewrite (reducer_TOGGLE_SWITCH o a Ha).
  - intros [Ha|Ha].
    + by rewrite (reducer_INCREASE o a Ha).
    + by rewrite (reducer_DECREASE o a Ha).
Qed.

Lemma reducer_changes_one_field_without_mutation_witness :
  Heap.module_heap !! Heap.initialState_ref = Some initialState
  ∧ ∃ r' h',
      Heap.reducer Heap.module_heap (Some Heap.initialState_ref) toggleSwitch
      = Some (r', h')
      ∧ h' !! Heap.initialState_ref = Some initialState
      ∧ h' !! r' = Some {| toggle := true; counter := Num 0 |}.
Proof.
  split; [reflexivity|].
  destruct (reducer_changes_one_field_without_mutation
              Heap.module_heap Heap.initialState_ref initialState toggleSwitch
              eq_refl) as (r' & h' & Hr & Hf & Hv & _).
  exists r', h'. split_and!; [exact Hr| |exact Hv].
  apply Hf. reflexivity.
Defined.

(** C8. The reducer is deterministic and depends on its two arguments
    only: two calls whose state arguments hold equal objects (an undefined
    state standing for the initial object) and whose actions are equal
    return equal objects, whatever else the stores of the two calls hold. *)
Theorem reducer_depends_on_state_and_action_only
    (h1 h2 : gmap nat State) (state1 state2 : option nat) (o : State) (a : Action) :
  h1 !! default Heap.initialState_ref state1 = Some o →
  h2 !! default Heap.initialState_ref state2 = Some o →
  ∃ r1 h1' r2 h2',
    Heap.reducer h1 state1 a = Some (r1, h1')
    ∧ Heap.reducer h2 state2 a = Some (r2, h2')
    ∧ h1' !! r1 = Some (reducer (Some o) a)
    ∧ h2' !! r2 = Some (reducer (Some o) a).
Proof.
  intros H1 H2.
  destruct (heap_reducer_value h1 state1 a o H1) as (r1 & h1' & Hr1 & Hv1 & _).
  destruct (heap_reducer_value h2 state2 a o H2) as (r2 & h2' & Hr2 & Hv2 & _).
  by exists r1, h1', r2, h2'.
Qed.

Lemma reducer_depends_on_state_and_action_only_witness :
  ∃ r1 h1' r2 h2',
    Heap.reducer Heap.module_heap None decrease = Some (r1, h1')
    ∧ Heap.reducer
        (<[5%nat := {| toggle := true; counter := Num 8 |}]>
           (<[3%nat := initialState]> Heap.module_heap))
        (Some 3%nat) decrease = Some (r2, h2')
    ∧ h1' !! r1 = Some {| toggle := false; counter := Num (-1) |}
    ∧ h2' !! r2 = Some {| toggle := false; counter := Num (-1) |}.
Proof.
  apply (reducer_depends_on_state_and_action_only
           Heap.module_heap
           (<[5%nat := {| toggle := true; counter := Num 8 |}]>
              (<[3%nat := initialState]> Heap.module_heap))
           None (Some 3%nat) initialState decrease);
    vm_compute; reflexivity.
Defined.

(** The reducer on a state object never throws, and returns the object that
    [reducer] computes. *)
Lemma dynamic_reducer_object s a :
  Dynamic.reducer (Dynamic.Object s) a
  = Dynamic.Return (Dynamic.Object (reducer (Some s) a)).
Proof. unfold Dynamic.reducer, reducer; cbn [default]. by repeat case_decide. Qed.

Lemma dynamic_reducer_undefined a :
  Dynamic.reducer Dynamic.Undefined a
  = Dynamic.Return (Dynamic.Object (reducer None a)).
Proof. unfold Dynamic.reducer, reducer; cbn [default]. by repeat case_decide. Qed.

Section DynamicStore.

Context {TListener : Type}.
Implicit Types (c : Store.Container (TState := Dynamic.StateArg) (TListener := TListener)).

Lemma dynamic_store_object init :
  ∃ s, Store.getState (Dynamic.store (TListener := TListener) init None)
       = Some (Dynamic.Object s).
Proof.
  exists (reducer None init).
  unfold Dynamic.store, Store.create, Store.getState, Dynamic.transition; cbn.
  by rewrite dynamic_reducer_undefined.
Qed.

Lemma dynamic_dispatch_object c s a :
  Store.getState c = Some (Dynamic.Object s) →
  ∃ c', Store.dispatch Dynamic.transition a c = Some c'
        ∧ Store.getState c' = Some (Dynamic.Object (reducer (Some s) a)).
Proof.
  unfold Store.getState, Store.dispatch, Dynamic.transition. intros ->; cbn.
  rewrite dynamic_reducer_object; cbn. by eexists.
Qed.

(** A store that holds a state object holds one after any calls. *)
Lemma dynamic_run_object calls : ∀ c s,
  Store.getState c = Some (Dynamic.Object s) →
  ∃ s', Store.getState (Store.run Dynamic.transition c calls)
        = Some (Dynamic.Object s').
Proof.
  induction calls as [|o calls IH]; intros c s Hs; [by exists s|].
  rewrite run_cons. destruct o as [a|l|id|]; cbn [Store.step].
  - destruct (dynamic_dispatch_object c s a Hs) as (c' & -> & Hs'); cbn.
    by apply (IH _ _ Hs').
  - by apply (IH _ s).
  - by apply (IH _ s).
  - by apply (IH _ s).
Qed.

End DynamicStore.

(** C9 (amended). On every state that is a [{toggle, counter}] object, and
    on an undefined state, the reducer returns a state object for every
    action: it never returns [undefined] and does not throw.  The store
    created from the reducer without an initial state holds such an object
    after any calls, so a dispatch on it never takes the container's error
    branch. *)
Theorem reducer_returns_on_state_objects {TListener : Type}
    (s : State) (a init : Action)
    (calls : list (Store.call (TAction := Action) (TListener := TListener))) :
  Dynamic.reducer (Dynamic.Object s) a
  = Dynamic.Return (Dynamic.Object (reducer (Some s) a))
  ∧ Dynamic.reducer Dynamic.Undefined a
    = Dynamic.Return (Dynamic.Object (reducer None a))
  ∧ ∃ s' c',
      Store.getState
        (Store.run Dynamic.transition (Dynamic.store init None) calls)
      = Some (Dynamic.Object s')
      ∧ Store.dispatch Dynamic.transition a
          (Store.run Dynamic.transition (Dynamic.store init None) calls)
        = Some c'
      ∧ Store.getState c' = Some (Dynamic.Object (reducer (Some s') a)).
Proof.
  split_and!; [apply dynamic_reducer_object|apply dynamic_reducer_undefined|].
  destruct (dynamic_store_object (TListener := TListener) init) as [s0 Hs0].
  destruct (dynamic_run_object calls _ _ Hs0) as [s' Hs'].
  destruct (dynamic_dispatch_object _ s' a Hs') as (c' & Hc' & Hs'').
  by exists s', c'.
Qed.

(** C9 as first stated fails on a state that is defined but is no object:
    with [null] for the state, a toggle action throws a TypeError, and a
    store that was given [null] as its initial state takes the error branch
    on the dispatch. *)
Lemma reducer_throws_on_null_state :
  Dynamic.reducer Dynamic.Null toggleSwitch = Dynamic.ThrowTypeError
  ∧ Store.dispatch Dynamic.transition toggleSwitch
      (Dynamic.store (TListener := Listener) redux_init (Some Dynamic.Null))
    = None.
Proof. split; reflexivity. Qed.

(** C10. Toggling twice is the identity: for every state,
    [reducer(reducer(s, toggleSwitch()), toggleSwitch())] equals [s] field by
    field. *)
Theorem toggleSwitch_twice_is_identity (s : State) :
  reducer (Some (reducer (Some s) toggleSwitch)) toggleSwitch = s.
Proof.
  rewrite !(reducer_TOGGLE_SWITCH _ toggleSwitch eq_refl).
  apply spread_toggle_twice.
Qed.

(** In the object store the two toggles allocate two objects; the last one
    is equal to the first state by value and is not the same object. *)
Lemma toggleSwitch_twice_in_store (h : gmap nat State) (r : nat) (o : State) :
  h !! r = Some o →
  ∃ r1 h1 r2 h2,
    Heap.reducer h (Some r) toggleSwitch = Some (r1, h1)
    ∧ Heap.reducer h1 (Some r1) toggleSwitch = Some (r2, h2)
    ∧ h2 !! r2 = Some o ∧ h2 !! r = Some o ∧ r2 ≠ r.
Proof.
  intros Ho.
  assert (recognised (type toggleSwitch)) as Ht by by left.
  destruct (heap_reducer_value h (Some r) toggleSwitch o Ho)
    as (r1 & h1 & Hr1 & Hv1 & Hf1 & _ & _).
  destruct (heap_reducer_value h1 (Some r1) toggleSwitch _ Hv1)
    as (r2 & h2 & Hr2 & Hv2 & Hf2 & Hnew2 & _).
  exists r1, h1, r2, h2.
  rewrite !(reducer_TOGGLE_SWITCH _ toggleSwitch eq_refl), spread_toggle_twice in Hv2.
  split_and!; [done..|by apply Hf2, Hf1|].
  intros ->. specialize (Hnew2 Ht). rewrite (Hf1 _ _ Ho) in Hnew2. done.
Qed.

(** ** Sequences of actions *)

Lemma replay_cons s a actions :
  replay s (a :: actions) = replay (reducer (Some s) a) actions.
Proof. reflexivity. Qed.

(** One step on a counter that holds an integer, when the result is a safe
    integer. *)
Lemma reducer_exact s a n :
  numeric a → counter s = Num n →
  Z.abs n + Z.abs (delta a) ≤ MAX_SAFE_INTEGER →
  reducer (Some s) a
  = {| toggle := xorb (toggle s) (bool_decide (type a = TOGGLE_SWITCH));
       counter := Num (n + delta a) |}.
Proof.
  unfold numeric, delta. intros Ha Hn Hb.
  destruct s as [t c]; cbn in Hn; subst c.
  destruct (decide (type a = TOGGLE_SWITCH)) as [Ht|Ht].
  { rewrite (reducer_TOGGLE_SWITCH _ a Ht), bool_decide_eq_true_2 by done.
    unfold spread_toggle; cbn. rewrite xorb_true_r. do 2 f_equal. lia. }
  rewrite bool_decide_eq_false_2, xorb_false_r by done.
  destruct (decide (type a = INCREASE)) as [Hi|Hi].
  { destruct (Ha Hi) as [d Hd]. rewrite Hd in Hb |- *.
    rewrite (reducer_INCREASE _ a Hi), Hd. unfold spread_counter; cbn [to_number toggle counter].
    rewrite js_add_safe by lia. done. }
  destruct (decide (type a = DECREASE)) as [Hd|Hd].
  { rewrite (reducer_DECREASE _ a Hd). unfold spread_counter; cbn [toggle counter].
    rewrite js_sub_safe by lia. do 2 f_equal. }
  rewrite reducer_default by (unfold recognised; tauto).
  do 2 f_equal. lia.
Qed.

Lemma toggles_cons a actions :
  toggles (a :: actions)
  = ((if bool_decide (type a = TOGGLE_SWITCH) then 1 else 0) + toggles actions)%nat.
Proof.
  unfold toggles. case_bool_decide.
  - by rewrite filter_cons_True.
  - by rewrite filter_cons_False.
Qed.

Lemma weight_cons a actions :
  weight (a :: actions) = Z.abs (delta a) + weight actions.
Proof. reflexivity. Qed.

Lemma weight_nonneg actions : 0 ≤ weight actions.
Proof.
  induction actions as [|a actions IH]; [done|]. rewrite weight_cons. lia.
Qed.

Lemma weight_permutation xs ys : xs ≡ₚ ys → weight xs = weight ys.
Proof.
  induction 1 as [|a xs ys _ IH|a b xs|xs ys zs _ IH1 _ IH2];
    rewrite ?weight_cons; lia.
Qed.

(** X1. While the counter stays within the safe integers, the order in
    which actions are dispatched does not matter: from an integer counter
    [n], two lists of actions with integer INCREASE payloads that are
    permutations of each other, and that cannot move the counter beyond
    [MAX_SAFE_INTEGER] in magnitude, end in the same state. *)
Theorem replay_permutation (s : State) (n : Z) (xs ys : list Action) :
  xs ≡ₚ ys →
  Forall numeric xs →
  counter s = Num n →
  Z.abs n + weight xs ≤ MAX_SAFE_INTEGER →
  replay s xs = replay s ys.
Proof.
  intros Hp. revert s n.
  induction Hp as [|a xs ys Hp IH|a b xs|xs ys zs Hp1 IH1 Hp2 IH2];
    intros s n Hall Hn Hb.
  - done.
  - apply Forall_cons in Hall as [Ha Hall]. rewrite weight_cons in Hb.
    pose proof (weight_nonneg xs).
    rewrite !replay_cons, (reducer_exact s a n Ha Hn) by lia.
    apply (IH _ (n + delta a)); [done|done|lia].
  - apply Forall_cons in Hall as [Hb' Hall].
    apply Forall_cons in Hall as [Ha Hall].
    rewrite !weight_cons in Hb. pose proof (weight_nonneg xs).
    rewrite !replay_cons.
    rewrite (reducer_exact s b n Hb' Hn) by lia.
    rewrite (reducer_exact (mkState _ (Num (n + delta b))) a _ Ha eq_refl) by lia.
    rewrite (reducer_exact s a n Ha Hn) by lia.
    rewrite (reducer_exact (mkState _ (Num (n + delta a))) b _ Hb' eq_refl) by lia.
    cbn [toggle counter]. f_equal. f_equal.
    + by destruct (toggle s), (bool_decide _), (bool_decide _).
    + f_equal. lia.
  - rewrite (IH1 s n Hall Hn Hb). apply (IH2 s n); [|done|].
    + by rewrite <-Hp1.
    + by rewrite <-(weight_permutation _ _ Hp1).
Qed.

Lemma replay_permutation_witness :
  [toggleSwitch; increase (Some (Num 2)); decrease]
    ≡ₚ [decrease; toggleSwitch; increase (Some (Num 2))]
  ∧ replay initialState [toggleSwitch; increase (Some (Num 2)); decrease]
    = replay initialState [decrease; toggleSwitch; increase (Some (Num 2))].
Proof.
  assert ([toggleSwitch; increase (Some (Num 2)); decrease]
            ≡ₚ [decrease; toggleSwitch; increase (Some (Num 2))]) as Hp.
  { symmetry.
    apply (Permutation_cons_append [toggleSwitch; increase (Some (Num 2))] decrease). }
  split; [exact Hp|].
  apply (replay_permutation initialState 0 _ _ Hp).
  - repeat constructor; unfold numeric; cbn; first [discriminate | by eexists].
  - reflexivity.
  - vm_compute. discriminate.
Defined.

(** X2. From an integer counter [n], a list of actions whose INCREASE
    payloads are integers and that cannot move the counter beyond
    [MAX_SAFE_INTEGER] in magnitude ends with the counter at [n] plus the
    sum of the INCREASE payloads minus the number of DECREASE actions, and
    with the toggle flipped when the number of TOGGLE_SWITCH actions is odd;
    actions of any other type count for nothing. *)
Theorem replay_closed_form (s : State) (n : Z) (actions : list Action) :
  Forall numeric actions →
  counter s = Num n →
  Z.abs n + weight actions ≤ MAX_SAFE_INTEGER →
  replay s actions
  = {| toggle := xorb (toggle s) (Nat.odd (toggles actions));
       counter := Num (n + net actions) |}.
Proof.
  intros Hall. revert s n.
  induction Hall as [|a actions Ha _ IH]; intros s n Hn Hb.
  - destruct s as [t c]; cbn in *; subst c. unfold toggles, net; cbn.
    rewrite xorb_false_r. f_equal. f_equal. lia.
  - rewrite weight_cons in Hb. pose proof (weight_nonneg actions).
    rewrite replay_cons, (reducer_exact s a n Ha Hn) by lia.
    rewrite (IH _ (n + delta a)) by (cbn; first [done | lia]).
    cbn [toggle counter].
    rewrite toggles_cons. unfold net; cbn [fmap list_fmap foldr].
    f_equal.
    + case_bool_decide; cbn [Nat.add].
      * rewrite Nat.odd_succ, <-Nat.negb_odd. by destruct (toggle s), (Nat.odd _).
      * by rewrite xorb_false_r.
    + f_equal. lia.
Qed.

Lemma replay_closed_form_witness :
  Forall numeric
    [increase (Some (Num 5)); toggleSwitch; decrease;
     {| type := "RESET"; difference := None |}; toggleSwitch; toggleSwitch]
  ∧ replay {| toggle := false; counter := Num 10 |}
      [increase (Some (Num 5)); toggleSwitch; decrease;
       {| type := "RESET"; difference := None |}; toggleSwitch; toggleSwitch]
    = {| toggle := true; counter := Num 14 |}.
Proof.
  assert (Forall numeric
            [increase (Some (Num 5)); toggleSwitch; decrease;
             {| type := "RESET"; difference := None |}; toggleSwitch; toggleSwitch])
    as Hall.
  { repeat constructor; unfold numeric; cbn; first [discriminate | by eexists]. }
  split; [exact Hall|].
  apply (replay_closed_form {| toggle := false; counter := Num 10 |} 10 _ Hall eq_refl).
  vm_compute. discriminate.
Defined.

(** Where binary64 rounds, the order of the actions shows: from 0, an
    increase by 2^53 followed by two increases by 1 ends at 2^53, the two
    increases by 1 followed by the increase by 2^53 end at 2^53 + 2. *)
Example replay_order_beyond_safe_integers :
  counter (replay initialState
             [increase (Some (Num 9007199254740992));
              increase (Some (Num 1)); increase (Some (Num 1))])
  = Num 9007199254740992
  ∧ counter (replay initialState
               [increase (Some (Num 1)); increase (Some (Num 1));
                increase (Some (Num 9007199254740992))])
    = Num 9007199254740994.
Proof. vm_compute. split; reflexivity. Qed.

Lemma reducer_NaN s a : counter s = NaN → counter (reducer (Some s) a) = NaN.
Proof.
  intros Hn. unfold reducer; cbn [default].
  repeat case_decide; cbn; by rewrite ?Hn.
Qed.

Lemma replay_NaN actions : ∀ s, counter s = NaN → counter (replay s actions) = NaN.
Proof.
  induction actions as [|a actions IH]; intros s Hn; [done|].
  rewrite replay_cons. by apply IH, reducer_NaN.
Qed.

(** X3. One INCREASE action without a [difference] makes the counter NaN,
    and no later action brings a number back. *)
Theorem missing_difference_poisons_counter
    (s : State) (a : Action) (rest : list Action) :
  type a = INCREASE →
  difference a = None →
  counter (reducer (Some s) a) = NaN
  ∧ counter (replay s (a :: rest)) = NaN.
Proof.
  intros Ha Hd.
  assert (counter (reducer (Some s) a) = NaN) as Hn.
  { rewrite (reducer_INCREASE s a Ha), Hd. cbn. by destruct (counter s). }
  split; [done|]. rewrite replay_cons. by apply replay_NaN.
Qed.

Lemma missing_difference_poisons_counter_witness :
  counter (replay {| toggle := false; counter := Num 4 |}
             [increase None; decrease; increase (Some (Num 7)); toggleSwitch])
  = NaN.
Proof.
  apply (missing_difference_poisons_counter
           {| toggle := false; counter := Num 4 |} (increase None)
           [decrease; increase (Some (Num 7)); toggleSwitch] eq_refl eq_refl).
Defined.



(** At the edge of the safe integers the buttons do not undo each other:
    from 2^53 an increase by 1 and a decrease end at 2^53 - 1. *)
Example increase_decrease_at_2_53 :
  reducer (Some (reducer (Some {| toggle := false; counter := Num 9007199254740992 |})
                   (clicked btnIncrease))) (clicked btnDecrease)
  = {| toggle := false; counter := Num 9007199254740991 |}.
Proof. vm_compute. reflexivity. Qed.

(** ** The class list *)

Lemma elem_of_classList_add t token (l : list string) :
  t ∈ Script.classList_add token l ↔ t = token ∨ t ∈ l.
Proof.
  unfold Script.classList_add. case_decide.
  - split; [by right|]. by intros [->|?].
  - rewrite elem_of_app. split.
    + intros [?|?%list_elem_of_singleton]; tauto.
    + intros [->|?]; [right; by apply list_elem_of_singleton|by left].
Qed.

Lemma elem_of_classList_remove t token (l : list string) :
  t ∈ Script.classList_remove token l ↔ t ≠ token ∧ t ∈ l.
Proof. unfold Script.classList_remove. by rewrite list_elem_of_filter. Qed.

Lemma NoDup_classList_add token (l : list string) :
  NoDup l → NoDup (Script.classList_add token l).
Proof.
  intros Hl. unfold Script.classList_add. case_decide; [done|].
  apply NoDup_app. split_and!; [done| |apply NoDup_singleton].
  intros x Hx ->%list_elem_of_singleton. done.
Qed.

Lemma NoDup_classList_remove token (l : list string) :
  NoDup l → NoDup (Script.classList_remove token l).
Proof. apply NoDup_filter. Qed.

Lemma classList_add_present token (l : list string) :
  token ∈ l → Script.classList_add token l = l.
Proof. intros Hin. unfold Script.classList_add. by case_decide. Qed.

Lemma classList_remove_absent token (l : list string) :
  token ∉ l → Script.classList_remove token l = l.
Proof.
  intros Hin. unfold Script.classList_remove.
  induction l as [|x l IH]; [done|].
  apply not_elem_of_cons in Hin as [Hne Hin].
  rewrite filter_cons_True by congruence. f_equal. by apply IH.
Qed.

(** ** Rendering *)

(** What [render] writes, read back from the page. *)
Lemma render_shows_state_aux (w : Script.World) (s : State) :
  Store.getState (Script.w_store w) = Some s →
  ∃ w',
    Script.render w = Some w'
    ∧ ("active" ∈ Script.divToggle_classList (Script.w_document w')
       ↔ toggle s = true)
    ∧ Script.counter_innerText (Script.w_document w')
      = Script.number_to_string (counter s).
Proof.
  intros Hs. unfold Script.render. rewrite Hs; cbn.
  eexists. split; [reflexivity|]. cbn. split; [|done].
  destruct (toggle s).
  - rewrite elem_of_classList_add. tauto.
  - rewrite elem_of_classList_remove. split; [tauto|done].
Qed.

(** X5. When the store holds a state, [render] does not throw and leaves the
    page showing it: [divToggle] has the class [active] exactly when the flag
    is set, every other class is kept, no class is duplicated, and the text
    of the [h1] element is the counter; the store and the console are not
    touched. *)
Theorem render_shows_state (w : Script.World) (s : State) :
  Store.getState (Script.w_store w) = Some s →
  ∃ w',
    Script.render w = Some w'
    ∧ Script.w_store w' = Script.w_store w
    ∧ Script.w_console w' = Script.w_console w
    ∧ shows (Script.divToggle_classList (Script.w_document w))
        (Script.w_document w') s
    ∧ (NoDup (Script.divToggle_classList (Script.w_document w)) →
       NoDup (Script.divToggle_classList (Script.w_document w'))).
Proof.
  intros Hs. unfold Script.render. rewrite Hs; cbn.
  eexists. split; [reflexivity|]. cbn. split_and!; [done|done| |].
  - unfold shows; cbn. destruct (toggle s); split_and!; try done.
    + rewrite elem_of_classList_add. tauto.
    + intros t Ht. rewrite elem_of_classList_add. tauto.
    + rewrite elem_of_classList_remove. split; [tauto|done].
    + intros t Ht. rewrite elem_of_classList_remove. tauto.
  - intros Hnd. destruct (toggle s).
    + by apply NoDup_classList_add.
    + by apply NoDup_classList_remove.
Qed.

Lemma render_shows_state_witness :
  ∃ w',
    Script.render
      {| Script.w_store :=
           Store.create transition redux_init
             (Some {| toggle := true; counter := Num (-3) |});
         Script.w_document :=
           {| Script.divToggle_classList := ["toggle"];
              Script.counter_innerText := "" |};
         Script.w_console := [] |} = Some w'
    ∧ Script.w_document w'
      = {| Script.divToggle_classList := ["toggle"; "active"];
           Script.counter_innerText := "-3" |}.
Proof.
  destruct (render_shows_state
              {| Script.w_store :=
                   Store.create transition redux_init
                     (Some {| toggle := true; counter := Num (-3) |});
                 Script.w_document :=
                   {| Script.divToggle_classList := ["toggle"];
                      Script.counter_innerText := "" |};
                 Script.w_console := [] |}
              {| toggle := true; counter := Num (-3) |} eq_refl)
    as (w' & Hr & _).
  exists w'. split; [exact Hr|].
  vm_compute in Hr. injection Hr as <-. reflexivity.
Defined.

(** X6. Rendering twice is rendering once: a second [render] on the same
    state leaves the page as the first one made it. *)
Theorem render_idempotent (w w' : Script.World) :
  Script.render w = Some w' → Script.render w' = Some w'.
Proof.
  unfold Script.render. destruct w as [c [cl txt] con]; cbn.
  destruct (Store.getState c) as [s|] eqn:Hs; cbn; [|done].
  intros [= <-]; cbn. rewrite Hs; cbn. do 3 f_equal.
  destruct (toggle s).
  - apply classList_add_present. apply elem_of_classList_add. by left.
  - apply classList_remove_absent.
    intros [Hne _]%elem_of_classList_remove. done.
Qed.

Lemma render_idempotent_witness :
  ∃ w',
    Script.render
      {| Script.w_store := store redux_init;
         Script.w_document :=
           {| Script.divToggle_classList := ["toggle"; "active"];
              Script.counter_innerText := "" |};
         Script.w_console := [] |} = Some w'
    ∧ Script.render w' = Some w'.
Proof.
  eexists. split; [vm_compute; reflexivity|].
  apply (render_idempotent
           {| Script.w_store := store redux_init;
              Script.w_document :=
                {| Script.divToggle_classList := ["toggle"; "active"];
                   Script.counter_innerText := "" |};
              Script.w_console := [] |}).
  vm_compute. reflexivity.
Defined.

(** ** The counter as text *)

Lemma pretty_N_char_letter (c : ascii) :
  c = "N"%char ∨ c = "I"%char ∨ c = "-"%char → ∀ d, pretty_N_char d ≠ c.
Proof.
  intros Hc d. unfold pretty_N_char.
  destruct Hc as [-> | [-> | ->]]; repeat case_match; discriminate.
Qed.

(** Digits are put in front of [s], so a text that starts with another
    character does not come out unless [s] starts with it. *)
Lemma pretty_N_go_head (c : ascii) x :
  (∀ d, pretty_N_char d ≠ c) →
  ∀ s, (∀ s', s ≠ String c s') → ∀ s', pretty_N_go x s ≠ String c s'.
Proof.
  intros Hc. induction (N.lt_wf_0 x) as [x _ IH]; intros s Hs s'.
  destruct (decide (x = 0)%N) as [->|Hx].
  - rewrite pretty_N_go_0. apply Hs.
  - rewrite pretty_N_go_step by lia.
    apply IH; [apply N.div_lt; lia|].
    intros s'' Heq. injection Heq as Hd _. by apply Hc in Hd.
Qed.

Lemma pretty_positive_head (c : ascii) (p : positive) :
  (∀ d, pretty_N_char d ≠ c) → ∀ s', pretty p ≠ String c s'.
Proof.
  intros Hc s'. unfold pretty, pretty_positive, pretty, pretty_N.
  case_decide; [done|].
  apply pretty_N_go_head; [done|discriminate].
Qed.

Lemma pretty_Z_head (c : ascii) (z : Z) :
  c = "N"%char ∨ c = "I"%char → ∀ s', pretty z ≠ String c s'.
Proof.
  intros Hc s'.
  assert (∀ d, pretty_N_char d ≠ c) as Hd
    by (apply pretty_N_char_letter; tauto).
  destruct z as [|p|p]; unfold pretty, pretty_Z.
  - intros Heq. injection Heq as H0 _. by apply (Hd 0%N).
  - by apply pretty_positive_head.
  - cbn. intros Heq. injection Heq as <- _. destruct Hc; discriminate.
Qed.

Lemma pretty_Z_not_NegInfinity (z : Z) : pretty z ≠ "-Infinity".
Proof.
  destruct z as [|p|p]; unfold pretty, pretty_Z.
  - discriminate.
  - apply pretty_positive_head, pretty_N_char_letter. tauto.
  - cbn. intros [= H]. revert H.
    apply pretty_positive_head, pretty_N_char_letter. tauto.
Qed.

Lemma number_to_string_inj n m :
  Script.number_to_string n = Script.number_to_string m → n = m.
Proof.
  assert (∀ z, pretty z ≠ "NaN") as HNaN
    by (intros z; apply pretty_Z_head; tauto).
  assert (∀ z, pretty z ≠ "Infinity") as HInf
    by (intros z; apply pretty_Z_head; tauto).
  pose proof pretty_Z_not_NegInfinity as HNeg.
  destruct n as [x| | |], m as [y| | |]; cbn; intros H; try done;
    try (by apply HNaN in H); try (by apply HInf in H);
    try (by apply HNeg in H);
    try (symmetry in H; by first [apply HNaN in H | apply HInf in H | apply HNeg in H]).
  f_equal. by apply (inj pretty).
Qed.

(** X7. The page that [render] leaves determines the state: two stores
    whose renderings give the same class list and the same text hold the
    same state. *)
Theorem rendered_page_determines_state (w1 w2 w1' w2' : Script.World) :
  Script.render w1 = Some w1' →
  Script.render w2 = Some w2' →
  Script.w_document w1' = Script.w_document w2' →
  Store.getState (Script.w_store w1) = Store.getState (Script.w_store w2).
Proof.
  intros H1 H2 Hd.
  destruct (Store.getState (Script.w_store w1)) as [s1|] eqn:Hs1;
    [|unfold Script.render in H1; by rewrite Hs1 in H1].
  destruct (Store.getState (Script.w_store w2)) as [s2|] eqn:Hs2;
    [|unfold Script.render in H2; by rewrite Hs2 in H2].
  destruct (render_shows_state_aux w1 s1 Hs1) as (v1 & Hr1 & Ht1 & Hc1).
  destruct (render_shows_state_aux w2 s2 Hs2) as (v2 & Hr2 & Ht2 & Hc2).
  rewrite H1 in Hr1. rewrite H2 in Hr2. simplify_eq.
  rewrite Hd in Ht1, Hc1. f_equal.
  destruct s1 as [t1 n1], s2 as [t2 n2]; cbn in *. f_equal.
  - destruct t1, t2; try done.
    + symmetry. by apply Ht2, Ht1.
    + by apply Ht1, Ht2.
  - apply number_to_string_inj. congruence.
Qed.

Lemma rendered_page_determines_state_witness :
  Store.getState
    (Script.w_store
       {| Script.w_store := store redux_init;
          Script.w_document :=
            {| Script.divToggle_classList := ["toggle"; "active"];
               Script.counter_innerText := "7" |};
          Script.w_console := [] |})
  = Store.getState
      (Script.w_store
         {| Script.w_store := Store.create transition redux_init (Some initialState);
            Script.w_document :=
              {| Script.divToggle_classList := ["toggle"];
                 Script.counter_innerText := "" |};
            Script.w_console := ["log"] |}).
Proof.
  eapply rendered_page_determines_state; [reflexivity|reflexivity|].
  vm_compute. reflexivity.
Defined.

(** ** The script *)

Lemma shows_rendered classList0 (classList : list string) (s : State) :
  (∀ t, t ≠ "active" → t ∈ classList ↔ t ∈ classList0) →
  shows classList0
    {| Script.divToggle_classList :=
         if toggle s then Script.classList_add "active" classList
         else Script.classList_remove "active" classList;
       Script.counter_innerText := Script.number_to_string (counter s) |} s.
Proof.
  intros Hcl. unfold shows; cbn. destruct (toggle s); split_and!; try done.
  - rewrite elem_of_classList_add. tauto.
  - intros t Ht. rewrite elem_of_classList_add, <-(Hcl t Ht). tauto.
  - rewrite elem_of_classList_remove. split; [tauto|done].
  - intros t Ht. rewrite elem_of_classList_remove, <-(Hcl t Ht). tauto.
Qed.

(** The module body leaves the script settled on the initial state. *)
Lemma index_js_settled init page :
  ¬ recognised (type init) →
  ∃ w, index_js init page = Some w
       ∧ settled (Script.divToggle_classList page) 0 initialState w.
Proof.
  intros Hinit. unfold index_js, Script.render; cbn [Script.w_store].
  rewrite (store_getState (TListener := Listener) init Hinit); cbn.
  eexists. split; [reflexivity|].
  unfold settled; cbn. split_and!; try done.
  - by apply (store_getState (TListener := Listener)).
  - by apply (shows_rendered _ _ initialState).
Qed.

(** A click takes a settled script to a settled script. *)
Lemma onclick_settled classList0 k s b w :
  settled classList0 k s w →
  ∃ w', onclick b w = Some w'
        ∧ settled classList0 (S k) (reducer (Some s) (clicked b)) w'.
Proof.
  intros (Hs & Hl & Hn & Hc & Hsh).
  destruct w as [[cur ls next log] doc con]; cbn in *. subst cur ls log con.
  unfold onclick, store_dispatch, Store.dispatch, transition; cbn.
  eexists. split; [reflexivity|].
  unfold settled; cbn. split_and!; try done.
  - symmetry. apply replicate_cons_app.
  - apply shows_rendered. by destruct Hsh as (_ & Hothers & _).
Qed.

Lemma clicks_settled classList0 bs : ∀ k s w,
  settled classList0 k s w →
  ∃ w', clicks bs w = Some w'
        ∧ settled classList0 (k + length bs) (replay s (clicked <$> bs)) w'.
Proof.
  induction bs as [|b bs IH]; intros k s w Hw.
  - exists w. split; [done|]. by rewrite Nat.add_0_r.
  - destruct (onclick_settled classList0 k s b w Hw) as (w1 & Hb & Hw1).
    destruct (IH _ _ _ Hw1) as (w2 & Hbs & Hw2).
    exists w2. cbn [clicks]. rewrite Hb; cbn. split; [done|].
    replace (k + S (length bs))%nat with (S k + length bs)%nat by lia.
    exact Hw2.
Qed.

Lemma session_settled init page bs :
  ¬ recognised (type init) →
  ∃ w, session init page bs = Some w
       ∧ settled (Script.divToggle_classList page) (length bs)
           (replay initialState (clicked <$> bs)) w.
Proof.
  intros Hinit.
  destruct (index_js_settled init page Hinit) as (w0 & H0 & Hw0).
  destruct (clicks_settled _ bs _ _ _ Hw0) as (w & Hbs & Hw).
  exists w. unfold session. rewrite H0; cbn. by split.
Qed.

Lemma count_clicks_cons b x bs :
  count_clicks b (x :: bs)
  = ((if decide (x = b) then 1 else 0) + count_clicks b bs)%nat.
Proof.
  unfold count_clicks. case_decide.
  - by rewrite filter_cons_True.
  - by rewrite filter_cons_False.
Qed.

(** The state after a sequence of clicks that keeps the counter within the
    safe integers. *)
Lemma replay_clicked bs : ∀ s n,
  counter s = Num n →
  Z.abs n + Z.of_nat (length bs) ≤ MAX_SAFE_INTEGER →
  replay s (clicked <$> bs)
  = {| toggle := xorb (toggle s) (Nat.odd (count_clicks divToggle bs));
       counter := Num (n + Z.of_nat (count_clicks btnIncrease bs)
                       - Z.of_nat (count_clicks btnDecrease bs)) |}.
Proof.
  induction bs as [|b bs IH]; intros s n Hn Hb.
  - destruct s as [t c]; cbn in *; subst c. unfold count_clicks; cbn.
    rewrite xorb_false_r. do 2 f_equal. lia.
  - cbn [fmap list_fmap]. rewrite replay_cons, !count_clicks_cons.
    cbn [length] in Hb.
    destruct s as [t c]; cbn in Hn; subst c.
    destruct b; cbn [clicked]; repeat case_decide; try done.
    + rewrite (reducer_TOGGLE_SWITCH _ toggleSwitch eq_refl).
      rewrite (IH _ n) by (cbn; first [done | lia]).
      cbn [toggle counter spread_toggle].
      f_equal; try (f_equal; lia).
      cbn [Nat.add]. rewrite Nat.odd_succ, <-Nat.negb_odd.
      by destruct t, (Nat.odd _).
    + rewrite (reducer_INCREASE _ (increase _) eq_refl).
      unfold spread_counter; cbn [toggle counter to_number difference increase].
      rewrite js_add_safe by lia.
      rewrite (IH _ (n + 1)) by (cbn; first [done | lia]).
      cbn [toggle counter]. do 2 f_equal. lia.
    + rewrite (reducer_DECREASE _ decrease eq_refl).
      unfold spread_counter; cbn [toggle counter].
      rewrite js_sub_safe by lia.
      rewrite (IH _ (n - 1)) by (cbn; first [done | lia]).
      cbn [toggle counter]. do 2 f_equal. lia.
Qed.

(** X8. Whatever is clicked, the script never throws, the store holds the
    replay of the clicked actions from the initial state, and the page shows
    that state: [divToggle] has the class [active] exactly when the flag is
    set and otherwise the classes it came with, and the [h1] text is the
    counter. *)
Theorem session_page_shows_state
    (init : Action) (page : Script.Document) (bs : list Button) :
  ¬ recognised (type init) →
  ∃ w,
    session init page bs = Some w
    ∧ Store.getState (Script.w_store w)
      = Some (replay initialState (clicked <$> bs))
    ∧ shows (Script.divToggle_classList page) (Script.w_document w)
        (replay initialState (clicked <$> bs)).
Proof.
  intros Hinit.
  destruct (session_settled init page bs Hinit) as (w & Hw & Hs & _ & _ & _ & Hsh).
  by exists w.
Qed.

Lemma session_page_shows_state_witness :
  ∃ w,
    session redux_init
      {| Script.divToggle_classList := ["toggle"]; Script.counter_innerText := "" |}
      [btnIncrease; divToggle; btnIncrease; btnDecrease; btnIncrease] = Some w
    ∧ Script.w_document w
      = {| Script.divToggle_classList := ["toggle"; "active"];
           Script.counter_innerText := "2" |}.
Proof.
  assert (¬ recognised (type redux_init)) as Hinit
    by (apply (bool_decide_unpack _); vm_compute; exact I).
  destruct (session_page_shows_state redux_init
              {| Script.divToggle_classList := ["toggle"];
                 Script.counter_innerText := "" |}
              [btnIncrease; divToggle; btnIncrease; btnDecrease; btnIncrease]
              Hinit) as (w & Hw & _).
  exists w. split; [exact Hw|].
  vm_compute in Hw. injection Hw as <-. reflexivity.
Defined.

(** X9. [listener] is unsubscribed before the first click, so it is never
    called: nothing is ever logged to the console, while [render], the one
    listener left, is called by the store exactly once per click. *)
Theorem session_listener_never_called
    (init : Action) (page : Script.Document) (bs : list Button) :
  ¬ recognised (type init) →
  ∃ w,
    session init page bs = Some w
    ∧ Script.w_console w = []
    ∧ Store.listeners (Script.w_store w) = [(0%nat, render)]
    ∧ Store.notified (Script.w_store w) = replicate (length bs) (0%nat, render).
Proof.
  intros Hinit.
  destruct (session_settled init page bs Hinit) as (w & Hw & _ & Hl & Hn & Hc & _).
  by exists w.
Qed.

Lemma session_listener_never_called_witness :
  ∃ w,
    session redux_init
      {| Script.divToggle_classList := []; Script.counter_innerText := "" |}
      [divToggle; btnDecrease] = Some w
    ∧ Script.w_console w = []
    ∧ Store.notified (Script.w_store w) = [(0%nat, render); (0%nat, render)].
Proof.
  assert (¬ recognised (type redux_init)) as Hinit
    by (apply (bool_decide_unpack _); vm_compute; exact I).
  destruct (session_listener_never_called redux_init
              {| Script.divToggle_classList := []; Script.counter_innerText := "" |}
              [divToggle; btnDecrease] Hinit) as (w & Hw & Hc & _ & Hn).
  exists w. by split_and!.
Defined.

(** X10. After a sequence of at most [MAX_SAFE_INTEGER] clicks the counter
    is the number of clicks on [btnIncrease] minus the number of clicks on
    [btnDecrease], shown as decimal text in the [h1] element, and the flag
    is set, and [divToggle] has the class [active], exactly when [divToggle]
    was clicked an odd number of times. *)
Theorem session_counts_clicks
    (init : Action) (page : Script.Document) (bs : list Button) :
  ¬ recognised (type init) →
  Z.of_nat (length bs) ≤ MAX_SAFE_INTEGER →
  let n := (Z.of_nat (count_clicks btnIncrease bs)
            - Z.of_nat (count_clicks btnDecrease bs))%Z in
  ∃ w,
    session init page bs = Some w
    ∧ Store.getState (Script.w_store w)
      = Some {| toggle := Nat.odd (count_clicks divToggle bs); counter := Num n |}
    ∧ Script.counter_innerText (Script.w_document w) = pretty n
    ∧ ("active" ∈ Script.divToggle_classList (Script.w_document w)
       ↔ Nat.odd (count_clicks divToggle bs) = true).
Proof.
  intros Hinit Hlen n.
  destruct (session_settled init page bs Hinit)
    as (w & Hw & Hs & _ & _ & _ & Hact & _ & Htxt).
  rewrite (replay_clicked bs initialState 0 eq_refl) in Hs, Hact, Htxt
    by (cbn; lia).
  cbn [toggle counter initialState xorb] in Hs, Hact, Htxt.
  exists w. split_and!; done.
Qed.

Lemma session_counts_clicks_witness :
  ∃ w,
    session redux_init
      {| Script.divToggle_classList := ["toggle"; "active"];
         Script.counter_innerText := "" |}
      [btnDecrease; divToggle; btnDecrease; divToggle; btnIncrease; btnDecrease]
    = Some w
    ∧ Store.getState (Script.w_store w)
      = Some {| toggle := false; counter := Num (-2) |}
    ∧ Script.counter_innerText (Script.w_document w) = "-2".
Proof.
  assert (¬ recognised (type redux_init)) as Hinit
    by (apply (bool_decide_unpack _); vm_compute; exact I).
  destruct (session_counts_clicks redux_init
              {| Script.divToggle_classList := ["toggle"; "active"];
                 Script.counter_innerText := "" |}
              [btnDecrease; divToggle; btnDecrease; divToggle; btnIncrease; btnDecrease]
              Hinit) as (w & Hw & Hs & Ht & _).
  { vm_compute. discriminate. }
  exists w. by split_and!.
Defined.
